(** * pyfacebook: the Facebook Page resource and its paginated fetcher

    A shallow embedding of [pyfacebook/api/facebook/resource/page.py]
    together with the collaborators it calls.  Python values are embedded
    as follows:

    - [Optional[str]] is [option string]; Python truthiness of such a value
      ([if page_id:]) is the boolean [truthy];
    - [int] is [Z];
    - a JSON-decoded value is [Json], a [dict] keyed by strings is a
      [gmap string _];
    - a raised exception is the [Raise] outcome of a state-and-error monad
      whose state records every call made on [self.client]. *)

From Stdlib Require Import ZArith Lia Ascii String.
From stdpp Require Import base option list strings gmap.

Local Open Scope Z_scope.

(** ** Raw records *)

(** A JSON-decoded value, as [json.loads] produces it. *)
#[local] Unset Elimination Schemes.
Inductive Json : Type :=
| JNull
| JBool (b : bool)
| JNum (n : Z)
| JStr (s : string)
| JArr (xs : list Json)
| JObj (kv : gmap string Json).
#[local] Set Elimination Schemes.

(** The paging block of a connection response: a mapping that may hold the
    keys ["next"], ["previous"] and ["cursors"]. *)
Abbreviation Paging := (gmap string Json).

(** ** Field normalization *)

Module Params.

(** What callers hand over as [fields]: a string, a list or a tuple of
    strings ([None] is the [option] around it). *)
Inductive FieldValue : Type :=
| VStr (s : string)
| VList (xs : list string)
| VTuple (xs : list string).

(** Python's [",".join(xs)]. *)
Definition comma_join (xs : list string) : string := String.concat "," xs.

(** Modelled from the spec: [enf_comma_separated] lives in
    [pyfacebook/utils/params_utils.py], which is not part of the sources at
    hand; section 4.2 describes it as [normalize(field_name, value)]:
    null gives null, a sequence is joined with commas in input order,
    a string is returned unchanged. *)
Definition enf_comma_separated (field : string) (value : option FieldValue)
  : option string :=
  match value with
  | None => None
  | Some (VStr s) => Some s
  | Some (VList xs) => Some (comma_join xs)
  | Some (VTuple xs) => Some (comma_join xs)
  end.

(** Feeding a result of the normalization back in as a value. *)
Definition as_value (r : option string) : option FieldValue := VStr <$> r.

(** Python's [s.split(",")], used to read a normalized string back. *)
Fixpoint split_comma (s : string) : list string :=
  match s with
  | EmptyString => [EmptyString]
  | String c rest =>
      if Ascii.eqb c ","%char then EmptyString :: split_comma rest
      else match split_comma rest with
           | [] => [String c EmptyString]
           | h :: t => String c h :: t
           end
  end.

(** No comma occurs in [s]. *)
Fixpoint comma_free (s : string) : bool :=
  match s with
  | EmptyString => true
  | String c rest => negb (Ascii.eqb c ","%char) && comma_free rest
  end.

End Params.

(** ** Outcomes and the monad of resource methods *)

(** Exceptions a call can end with.  [LibraryError] is
    [pyfacebook.exceptions.LibraryError], raised with a [dict]; it is the
    error kind for missing or contradictory parameters.
    [RemoteRequestError] stands for whatever the transport raises. *)
Inductive Exception : Type :=
| LibraryError (info : gmap string string)
| RemoteRequestError (info : gmap string string).

(** How a call ends: it returns, it raises, or the bounded model of a loop
    ran out of steps before the loop finished. *)
Inductive Outcome (A : Type) : Type :=
| Return (a : A)
| Raise (e : Exception)
| OutOfFuel.
Arguments Return {A} a.
Arguments Raise {A} e.
Arguments OutOfFuel {A}.

(** Keyword arguments of [client.get_full_connections], shared by the
    caller in [page.py] and by the fetcher. *)
Record ConnArgs : Type := mkConnArgs {
  conn_object_id : string;
  conn_connection : option string;
  conn_count : option Z;
  conn_limit : option Z;
  conn_fields : option string;
  conn_since : option string;
  conn_until : option string
}.

(** ** The paginated connection fetcher *)

Module Fetcher.

(** One response unit: the records of the page and its paging block. *)
Record ConnectionPage : Type := mkPage {
  items : list Json;
  paging : Paging
}.

(** One outbound page request: the fixed parameters of the fetch and the
    cursor it is addressed with ([None] for the initial request). *)
Record Request : Type := mkRequest {
  req_object_id : string;
  req_connection : option string;
  req_fields : option string;
  req_since : option string;
  req_until : option string;
  req_limit : option Z;
  req_cursor : option string
}.

(** What the transport collaborator answers to a request. *)
Inductive Response : Type :=
| Failed (e : Exception)
| Delivered (p : ConnectionPage).

Abbreviation Server := (Request -> Response).

(** The cursor of the following page: the ["next"] entry of the paging
    block when it is a non-empty string. *)
Definition next_cursor (pg : Paging) : option string :=
  match pg !! "next" with
  | Some (JStr (String a s)) => Some (String a s)
  | _ => None
  end.

Definition is_empty (xs : list Json) : bool :=
  match xs with [] => true | _ :: _ => false end.

(** A page after which no further page is requested when no count stops
    the loop earlier. *)
Definition end_of_data (p : ConnectionPage) : bool :=
  is_empty (items p) || bool_decide (next_cursor (paging p) = None).

(** The accumulator has reached or exceeded a specified count. *)
Definition reached (count : option Z) (acc : list Json) : bool :=
  match count with
  | Some n => n <=? Z.of_nat (length acc)
  | None => false
  end.

(** Only the first [count] records, all of them when [count] is null. *)
Definition truncate (count : option Z) (acc : list Json) : list Json :=
  match count with
  | Some n => take (Z.to_nat n) acc
  | None => acc
  end.

Definition initial_request (a : ConnArgs) : Request :=
  {| req_object_id := conn_object_id a;
     req_connection := conn_connection a;
     req_fields := conn_fields a;
     req_since := conn_since a;
     req_until := conn_until a;
     req_limit := conn_limit a;
     req_cursor := None |}.

(** The same parameters, addressed with the cursor of the previous page. *)
Definition with_cursor (r : Request) (c : string) : Request :=
  {| req_object_id := req_object_id r;
     req_connection := req_connection r;
     req_fields := req_fields r;
     req_since := req_since r;
     req_until := req_until r;
     req_limit := req_limit r;
     req_cursor := Some c |}.

(** State of the fetch loop between two requests: the request to issue
    next, the accumulator, and the requests issued so far. *)
Record LoopState : Type := mkLoop {
  cur : Request;
  acc : list Json;
  sent : list Request
}.

Inductive Step : Type :=
| Continue (s : LoopState)
| Stop (result : list Json * Paging) (log : list Request)
| Abort (e : Exception) (log : list Request).

(** Modelled from the spec: the body of the loop of
    [client.get_full_connections] (the client module is not part of the
    sources at hand), after section 4.1, steps 2 to 4: issue the request,
    append the page's items, stop on a reached count with the first
    [count] items, stop on an empty page, stop when the paging block has
    no next cursor, otherwise go on with that cursor. *)
Definition fetch_step (server : Server) (count : option Z) (s : LoopState)
  : Step :=
  let log := sent s ++ [cur s] in
  match server (cur s) with
  | Failed e => Abort e log
  | Delivered page =>
      let acc' := acc s ++ items page in
      if reached count acc' then Stop (truncate count acc', paging page) log
      else if is_empty (items page) then Stop (acc', paging page) log
      else match next_cursor (paging page) with
           | None => Stop (acc', paging page) log
           | Some c =>
               Continue {| cur := with_cursor (cur s) c;
                           acc := acc';
                           sent := log |}
           end
  end.

(** The loop, bounded by [fuel] requests. *)
Fixpoint fetch_loop (fuel : nat) (server : Server) (count : option Z)
    (s : LoopState) : Outcome (list Json * Paging) * list Request :=
  match fuel with
  | O => (OutOfFuel, sent s)
  | S fuel' =>
      match fetch_step server count s with
      | Continue s' => fetch_loop fuel' server count s'
      | Stop result log => (Return result, log)
      | Abort e log => (Raise e, log)
      end
  end.

(** Modelled from the spec: [client.get_full_connections], section 4.1.
    The state it runs on is the list of requests already sent. *)
Definition get_full_connections (fuel : nat) (server : Server) (a : ConnArgs)
    (log : list Request) : Outcome (list Json * Paging) * list Request :=
  fetch_loop fuel server (conn_count a)
    {| cur := initial_request a; acc := []; sent := log |}.

(** The loop is before its [k]-th further request in state [s]. *)
Inductive reaches (server : Server) (count : option Z) (s0 : LoopState)
  : nat -> LoopState -> Prop :=
| reaches_start : reaches server count s0 O s0
| reaches_next k s s' :
    reaches server count s0 k s ->
    fetch_step server count s = Continue s' ->
    reaches server count s0 (S k) s'.

(** The pages the server reports from request [r] on, followed cursor by
    cursor up to the first page that ends the data. *)
Inductive serves (server : Server) : Request -> list ConnectionPage -> Prop :=
| serves_last r p :
    server r = Delivered p ->
    end_of_data p = true ->
    serves server r [p]
| serves_more r p c ps :
    server r = Delivered p ->
    is_empty (items p) = false ->
    next_cursor (paging p) = Some c ->
    serves server (with_cursor r c) ps ->
    serves server r (p :: ps).

(** The requests that fetch the pages [ps], from request [r] on. *)
Fixpoint trail (r : Request) (ps : list ConnectionPage) : list Request :=
  match ps with
  | [] => []
  | p :: rest =>
      r :: match next_cursor (paging p) with
           | Some c => trail (with_cursor r c) rest
           | None => []
           end
  end.

(** All records of a run of pages, in order. *)
Definition all_items (ps : list ConnectionPage) : list Json :=
  concat (items <$> ps).

Definition total (ps : list ConnectionPage) : Z :=
  Z.of_nat (length (all_items ps)).

End Fetcher.

(** ** The client and the models a resource relies on *)

(** A call made on [self.client], with the keyword arguments it receives. *)
Inductive Call : Type :=
| CallGetObject (object_id : string) (fields : option string)
| CallGetFullConnections (a : ConnArgs).

(** The two methods of the client that [page.py] uses here.  The client is
    a collaborator: each method is a transition of the outside world. *)
Record Client (World : Type) : Type := mkClient {
  client_get_object :
    string -> option string -> World -> Outcome Json * World;
  client_get_full_connections :
    ConnArgs -> World -> Outcome (list Json * Paging) * World
}.
Arguments client_get_object {World} c _ _ _.
Arguments client_get_full_connections {World} c _ _.

(** What [page.py] imports from modules that are not part of the sources at
    hand: the two model classes with their constructors from a JSON
    record, and the default field lists of [pyfacebook.utils.constant]
    (sequences of field names, concatenated with [+]). *)
Class Library : Type := mkLibrary {
  Page : Type;
  Post : Type;
  Page_new_from_json_dict : Json -> Page;
  Post_new_from_json_dict : Json -> Post;
  PAGE_PUBLIC_FIELDS : list string;
  POST_PUBLIC_FIELDS : list string;
  POST_CONNECTIONS_SUMMERY_FIELDS : list string
}.

(** The state a method runs on: the outside world and the calls made on the
    client so far. *)
Record State (World : Type) : Type := mkState {
  world : World;
  calls : list Call
}.
Arguments mkState {World} world calls.
Arguments world {World} s.
Arguments calls {World} s.

Definition M (World A : Type) : Type := State World -> Outcome A * State World.

Definition ret {World A} (a : A) : M World A := fun st => (Return a, st).

Definition raise {World A} (e : Exception) : M World A :=
  fun st => (Raise e, st).

Definition bind {World A B} (m : M World A) (k : A -> M World B) : M World B :=
  fun st =>
    match m st with
    | (Return a, st') => k a st'
    | (Raise e, st') => (Raise e, st')
    | (OutOfFuel, st') => (OutOfFuel, st')
    end.

Declare Scope py_scope.
Delimit Scope py_scope with py.
Notation "x <- m ;; k" := (bind m (fun x => k))
  (at level 100, m at next level, right associativity) : py_scope.
Local Open Scope py_scope.

(** Python truthiness of an [Optional[str]]: [None] and the empty string
    are false. *)
Definition truthy (x : option string) : bool :=
  match x with
  | Some (String _ _) => true
  | _ => false
  end.

(** A keyword argument at a call site: left out, or passed. *)
Inductive Arg (A : Type) : Type :=
| Omitted
| Passed (a : A).
Arguments Omitted {A}.
Arguments Passed {A} a.

(** The value a parameter with default [d] is bound to. *)
Definition arg_or {A} (d : A) (x : Arg A) : A :=
  match x with
  | Omitted => d
  | Passed a => a
  end.

(** ** [class FacebookPage(BaseResource)] *)

Module FacebookPage.
Import Params.

(** [Union[Page, dict]] *)
Inductive PageInfo `{Library} : Type :=
| PageJson (data : Json)
| PageObject (p : Page).

(** [List[Union[Post, dict]]]: all raw, or all mapped. *)
Inductive Feeds `{Library} : Type :=
| FeedsJson (feeds : list Json)
| FeedsPosts (posts : list Post).

Definition feeds_length `{Library} (f : Feeds) : nat :=
  match f with
  | FeedsJson feeds => length feeds
  | FeedsPosts posts => length posts
  end.

Section Methods.
Context `{Lib : Library} {World : Type}.
Variable client : Client World.

(** [self.client.get_object(object_id=..., fields=...)] *)
Definition call_get_object (object_id : string) (fields : option string)
  : M World Json :=
  fun st =>
    let (r, w) := client_get_object client object_id fields (world st) in
    (r, {| world := w;
           calls := calls st ++ [CallGetObject object_id fields] |}).

(** [self.client.get_full_connections(...)] *)
Definition call_get_full_connections (a : ConnArgs)
  : M World (list Json * Paging) :=
  fun st =>
    let (r, w) := client_get_full_connections client a (world st) in
    (r, {| world := w; calls := calls st ++ [CallGetFullConnections a] |}).

Definition missing_target : Exception :=
  LibraryError {[ "message" := "Specify at least one of page_id or username" ]}.

(** [FacebookPage.get_info].  The three parameters with default [None] are
    options (leaving one out is passing [None]); [return_json] defaults to
    [False]. *)
Definition get_info (page_id username : option string)
    (fields : option FieldValue) (return_json : bool) : M World PageInfo :=
  target <- (if truthy page_id then ret (default "" page_id)
             else if truthy username then ret (default "" username)
             else raise missing_target) ;;
  let fields :=
    match fields with
    | None => Some (VList PAGE_PUBLIC_FIELDS)
    | Some v => Some v
    end in
  data <- call_get_object target (enf_comma_separated "fields" fields) ;;
  if return_json then ret (PageJson data)
  else ret (PageObject (Page_new_from_json_dict data)).

(** [FacebookPage.get_feed].  [count], [limit] and [source] have defaults
    other than [None], so the call site says whether they were passed. *)
Definition get_feed (page_id : string) (fields : option FieldValue)
    (since until : option string) (count limit : Arg (option Z))
    (source : Arg (option string)) (return_json : bool)
  : M World (Feeds * Paging) :=
  let count := arg_or (Some 10) count in
  let limit := arg_or (Some 10) limit in
  let source := arg_or (Some "feed") source in
  let fields :=
    match fields with
    | None =>
        Some (VList (POST_PUBLIC_FIELDS ++ POST_CONNECTIONS_SUMMERY_FIELDS))
    | Some v => Some v
    end in
  r <- call_get_full_connections
         {| conn_object_id := page_id;
            conn_connection := source;
            conn_count := count;
            conn_limit := limit;
            conn_fields := enf_comma_separated "fields" fields;
            conn_since := since;
            conn_until := until |} ;;
  let '(feeds, paging) := r in
  if return_json then ret (FeedsJson feeds, paging)
  else ret (FeedsPosts (Post_new_from_json_dict <$> feeds), paging).

(** [FacebookPage.get_posts] *)
Definition get_posts (page_id : string) (fields : option FieldValue)
    (since until : option string) (count limit : Arg (option Z))
    (return_json : bool) : M World (Feeds * Paging) :=
  let count := arg_or (Some 10) count in
  let limit := arg_or (Some 10) limit in
  get_feed page_id fields since until (Passed count) (Passed limit)
    (Passed (Some "posts")) return_json.

(** [FacebookPage.get_published_posts] *)
Definition get_published_posts (page_id : string) (fields : option FieldValue)
    (since until : option string) (count limit : Arg (option Z))
    (return_json : bool) : M World (Feeds * Paging) :=
  let count := arg_or (Some 10) count in
  let limit := arg_or (Some 10) limit in
  get_feed page_id fields since until (Passed count) (Passed limit)
    (Passed (Some "published_posts")) return_json.

(** [FacebookPage.get_tagged_posts] *)
Definition get_tagged_posts (page_id : string) (fields : option FieldValue)
    (since until : option string) (count limit : Arg (option Z))
    (return_json : bool) : M World (Feeds * Paging) :=
  let count := arg_or (Some 10) count in
  let limit := arg_or (Some 10) limit in
  get_feed page_id fields since until (Passed count) (Passed limit)
    (Passed (Some "tagged")) return_json.

(** Section 4.3 read by presence, as a statement about [get_info]: a
    [page_id] other than [None] is the target, else a [username] other than
    [None] is, else the call raises with the state untouched. *)
Definition resolves_by_presence : Prop :=
  forall (page_id username : option string) (fields : option FieldValue)
         (return_json : bool) (st : State World),
    let run := get_info page_id username fields return_json st in
    match page_id, username with
    | Some p, _ =>
        exists flds, calls (snd run) = calls st ++ [CallGetObject p flds]
    | None, Some u =>
        exists flds, calls (snd run) = calls st ++ [CallGetObject u flds]
    | None, None => run = (Raise missing_target, st)
    end.

End Methods.
End FacebookPage.

(** ** The graph client built on the fetcher *)

Module Graph.
Import Fetcher.

(** The request of [client.get_object]: the object itself, no connection. *)
Definition object_request (object_id : string) (fields : option string)
  : Request :=
  {| req_object_id := object_id;
     req_connection := None;
     req_fields := fields;
     req_since := None;
     req_until := None;
     req_limit := None;
     req_cursor := None |}.

(** A client whose world is the list of requests sent: [get_object] sends
    one request, [get_full_connections] is the fetcher. *)
Definition graph_client (fuel : nat) (objects : Request -> Outcome Json)
    (server : Server) : Client (list Request) :=
  {| client_get_object object_id fields log :=
       let r := object_request object_id fields in (objects r, log ++ [r]);
     client_get_full_connections := get_full_connections fuel server |}.

(** A client keeps to the count when it never returns more records than a
    specified, non-negative [count]. *)
Definition honours_count {World} (client : Client World) : Prop :=
  forall a w feeds pg w' n,
    client_get_full_connections client a w = (Return (feeds, pg), w') ->
    conn_count a = Some n -> 0 <= n ->
    Z.of_nat (length feeds) <= n.

End Graph.

(** ** The scenarios of section 8 *)

Module Scenario.
Import Params Fetcher Graph FacebookPage.

Definition record (n : Z) : Json := JObj {[ "id" := JNum n ]}.

Definition record_id (j : Json) : Z :=
  match j with
  | JObj kv => match kv !! "id" with Some (JNum n) => n | _ => 0 end
  | _ => 0
  end.

(** Models that keep the id of a record. *)
Definition library : Library :=
  {| Page := Z;
     Post := Z;
     Page_new_from_json_dict := record_id;
     Post_new_from_json_dict := record_id;
     PAGE_PUBLIC_FIELDS := ["id"; "name"; "username"];
     POST_PUBLIC_FIELDS := ["id"; "message"];
     POST_CONNECTIONS_SUMMERY_FIELDS := ["comments.summary(true)"] |}.

(** Two pages: five records and a cursor, then four records and no cursor. *)
Definition page_1 : ConnectionPage :=
  {| items := record <$> [1; 2; 3; 4; 5];
     paging := {[ "next" := JStr "after-5" ]} |}.

Definition page_2 : ConnectionPage :=
  {| items := record <$> [6; 7; 8; 9];
     paging := {[ "previous" := JStr "before-6" ]} |}.

Definition unknown_cursor : Exception :=
  RemoteRequestError {[ "message" := "Invalid cursor" ]}.

Definition videos_server : Server := fun r =>
  match req_cursor r with
  | None => Delivered page_1
  | Some c => if String.eqb c "after-5" then Delivered page_2
              else Failed unknown_cursor
  end.

(** A server whose second page is empty although it still names a cursor. *)
Definition empty_page : ConnectionPage :=
  {| items := []; paging := {[ "next" := JStr "after-5" ]} |}.

Definition drained_server : Server := fun r =>
  match req_cursor r with
  | None => Delivered page_1
  | Some _ => Delivered empty_page
  end.

(** A feed that never ends: every request gets six records and a cursor. *)
Definition endless_page : ConnectionPage :=
  {| items := record <$> [1; 2; 3; 4; 5; 6];
     paging := {[ "next" := JStr "more" ]} |}.

Definition endless_server : Server := fun _ => Delivered endless_page.

Definition videos_args (count : option Z) : ConnArgs :=
  {| conn_object_id := "367152833370567";
     conn_connection := Some "videos";
     conn_count := count;
     conn_limit := Some 5;
     conn_fields := None;
     conn_since := None;
     conn_until := None |}.

(** The loop on the drained server after its first page. *)
Definition drained_after_first (count : option Z) : LoopState :=
  {| cur := with_cursor (initial_request (videos_args count)) "after-5";
     acc := items page_1;
     sent := [initial_request (videos_args count)] |}.

Definition objects : Request -> Outcome Json := fun r =>
  Return (JObj {[ "id" := JStr (req_object_id r) ]}).

Definition client (server : Server) : Client (list Request) :=
  graph_client 20 objects server.

Definition fresh : State (list Request) := {| world := []; calls := [] |}.

End Scenario.

(** ** [FacebookPage.get_batch] *)

Module PageBatch.
Import Params.

(** [Union[Dict[str, Page], dict]] *)
Inductive Batch `{Library} : Type :=
| BatchJson (data : gmap string Json)
| BatchPages (pages : gmap string Page).

(** The dict comprehension [{k: f(v) for k, v in data.items()}]: the items
    are visited one after the other and each is stored under its key in a
    dict that starts empty. *)
Definition dict_comprehension {A B : Type} (f : A -> B) (data : gmap string A)
  : gmap string B :=
  foldl (fun acc kv => <[kv.1 := f kv.2]> acc) ∅ (map_to_list data).

Section Method.
Context `{Lib : Library} {World : Type}.

(** [self.client.get_objects(ids=..., fields=...)], a method of the client
    like the two of [Client]: a transition of the outside world that
    answers with a dict from id to record. *)
Variable get_objects :
  option string -> option string -> World ->
  Outcome (gmap string Json) * World.

(** [FacebookPage.get_batch].  [ids] has no default; [fields] defaults to
    [None] and [return_json] to [False]. *)
Definition get_batch (ids fields : option FieldValue) (return_json : bool)
    (w : World) : Outcome Batch * World :=
  let ids := enf_comma_separated "ids" ids in
  let fields :=
    match fields with
    | None => Some (VList PAGE_PUBLIC_FIELDS)
    | Some v => Some v
    end in
  match get_objects ids (enf_comma_separated "fields" fields) w with
  | (Return data, w') =>
      if return_json then (Return (BatchJson data), w')
      else (Return (BatchPages
                      (dict_comprehension Page_new_from_json_dict data)), w')
  | (Raise e, w') => (Raise e, w')
  | (OutOfFuel, w') => (OutOfFuel, w')
  end.

End Method.
End PageBatch.

(** ** Further scenarios: a batch of two pages, and a transport outage *)

Module Outage.
Import Fetcher Graph Scenario.

Definition unreachable : Exception :=
  RemoteRequestError {[ "message" := "Connection refused" ]}.

(** A client every request of which fails in the transport. *)
Definition down_client : Client (list Request) :=
  graph_client 20 (fun _ => Raise unreachable) (fun _ => Failed unreachable).

(** The answer to a batch request for two pages, whatever was asked. *)
Definition two_pages : gmap string Json :=
  {[ "20531316728" := record 20531316728;
     "19292868552" := record 19292868552 ]}.

Definition get_objects_ok (ids fields : option string) (log : list Request)
  : Outcome (gmap string Json) * list Request :=
  (Return two_pages, log ++ [object_request (default "" ids) fields]).


End Outage.

(** * Properties *)

(** ** Field normalization *)

Section NormalizationFacts.
Import Params.

Lemma split_comma_prefix (a rest : string) :
  comma_free a = true ->
  split_comma (a +:+ "," +:+ rest) = a :: split_comma rest.
Proof.
  induction a as [|c a IH]; simpl; intros Hfree.
  - reflexivity.
  - apply andb_true_iff in Hfree as [Hc Ha].
    apply negb_true_iff in Hc. rewrite Hc.
    rewrite (IH Ha). reflexivity.
Qed.

Lemma split_comma_single (a : string) :
  comma_free a = true -> split_comma a = [a].
Proof.
  induction a as [|c a IH]; simpl; intros Hfree.
  - reflexivity.
  - apply andb_true_iff in Hfree as [Hc Ha].
    apply negb_true_iff in Hc. rewrite Hc.
    rewrite (IH Ha). reflexivity.
Qed.

Lemma comma_join_cons (x y : string) (ys : list string) :
  comma_join (x :: y :: ys) = x +:+ "," +:+ comma_join (y :: ys).
Proof. reflexivity. Qed.

Lemma split_comma_join (xs : list string) :
  xs <> [] ->
  forallb comma_free xs = true ->
  split_comma (comma_join xs) = xs.
Proof.
  induction xs as [|x xs IH]; intros Hne Hfree; [congruence|].
  simpl in Hfree. apply andb_true_iff in Hfree as [Hx Hxs].
  destruct xs as [|y ys].
  - apply split_comma_single, Hx.
  - rewrite comma_join_cons, (split_comma_prefix _ _ Hx).
    f_equal. apply IH; [discriminate | exact Hxs].
Qed.

(** C6: normalization is idempotent: normalizing the result of a
    normalization gives that result again, for every input and so for every
    string; and a value that is already a string comes back unchanged. *)
Theorem enf_comma_separated_idempotent (field : string) :
  (forall x : string,
      enf_comma_separated field (Some (VStr x)) = Some x /\
      enf_comma_separated field
        (as_value (enf_comma_separated field (Some (VStr x))))
      = enf_comma_separated field (Some (VStr x))) /\
  (forall v : option FieldValue,
      enf_comma_separated field (as_value (enf_comma_separated field v))
      = enf_comma_separated field v).
Proof.
  split.
  - intros x. split; reflexivity.
  - intros [[s|xs|xs]|]; reflexivity.
Qed.

(** C7: a sequence of strings is joined with commas, in input order and
    with repeated elements kept: [[a, b, c]] gives ["a,b,c"], a list and a
    tuple with the same elements give the same string, that string given
    directly is returned as it is, and splitting the result at the commas
    gives the input sequence back whenever no element holds a comma. *)
Theorem enf_comma_separated_sequence (field : string) (xs : list string)
    (a b c : string) :
  enf_comma_separated field (Some (VList [a; b; c]))
    = Some (a +:+ "," +:+ b +:+ "," +:+ c) /\
  enf_comma_separated field (Some (VTuple xs))
    = enf_comma_separated field (Some (VList xs)) /\
  enf_comma_separated field (Some (VStr (comma_join xs)))
    = enf_comma_separated field (Some (VList xs)) /\
  (xs <> [] -> forallb comma_free xs = true ->
   split_comma <$> enf_comma_separated field (Some (VList xs)) = Some xs).
Proof.
  repeat split; try reflexivity.
  intros Hne Hfree. simpl. f_equal. apply split_comma_join; assumption.
Qed.

Lemma enf_comma_separated_sequence_witness :
  split_comma <$>
    enf_comma_separated "fields" (Some (VList ["id"; "name"; "id"]))
  = Some ["id"; "name"; "id"].
Proof.
  apply (enf_comma_separated_sequence "fields" ["id"; "name"; "id"] "" "" "");
    [discriminate | reflexivity].
Defined.

End NormalizationFacts.

(** ** The paginated connection fetcher *)

Section FetcherFacts.
Import Fetcher.
Variable server : Server.

Lemma all_items_cons (p : ConnectionPage) (ps : list ConnectionPage) :
  all_items (p :: ps) = items p ++ all_items ps.
Proof. reflexivity. Qed.

Lemma all_items_app (ps qs : list ConnectionPage) :
  all_items (ps ++ qs) = all_items ps ++ all_items qs.
Proof.
  induction ps as [|p ps IH]; [reflexivity|].
  simpl. rewrite !all_items_cons, IH. apply app_assoc.
Qed.

Lemma serves_trail_length (r : Request) (ps : list ConnectionPage) :
  serves server r ps -> length (trail r ps) = length ps.
Proof.
  induction 1 as [r p Hp Hend | r p c ps Hp Hne Hc Hrest IH]; simpl.
  - destruct (next_cursor (paging p)); reflexivity.
  - rewrite Hc. simpl. f_equal. exact IH.
Qed.

Lemma serves_last_page (r : Request) (ps : list ConnectionPage) :
  serves server r ps -> exists p, last ps = Some p /\ end_of_data p = true.
Proof.
  induction 1 as [r p Hp Hend | r p c ps Hp Hne Hc Hrest IH].
  - exists p. split; [reflexivity | exact Hend].
  - destruct IH as (q & Hlast & Hq). exists q. split; [|exact Hq].
    destruct ps as [|p' ps']; [discriminate|]. exact Hlast.
Qed.

Lemma serves_earlier_pages (r : Request) (ps : list ConnectionPage) :
  serves server r ps ->
  forall (i : nat) (p : ConnectionPage),
    ps !! i = Some p -> (S i < length ps)%nat -> end_of_data p = false.
Proof.
  induction 1 as [r p Hp Hend | r p c ps Hp Hne Hc Hrest IH];
    intros i q Hi Hlt.
  - simpl in Hlt. lia.
  - destruct i as [|i]; simpl in *.
    + injection Hi as <-. unfold end_of_data. rewrite Hne, Hc. reflexivity.
    + apply (IH i q Hi). lia.
Qed.

(** One turn of the loop on a page that does not end the data, while the
    count is not reached. *)
Lemma fetch_step_continue (count : option Z) (s : LoopState)
    (p : ConnectionPage) (c : string) :
  server (cur s) = Delivered p ->
  reached count (acc s ++ items p) = false ->
  is_empty (items p) = false ->
  next_cursor (paging p) = Some c ->
  fetch_step server count s =
    Continue {| cur := with_cursor (cur s) c;
                acc := acc s ++ items p;
                sent := sent s ++ [cur s] |}.
Proof.
  intros Hp Hreach Hne Hc. unfold fetch_step. rewrite Hp, Hreach, Hne, Hc.
  reflexivity.
Qed.

(** One turn of the loop on a page that ends the data, while the count is
    not reached. *)
Lemma fetch_step_end (count : option Z) (s : LoopState) (p : ConnectionPage) :
  server (cur s) = Delivered p ->
  reached count (acc s ++ items p) = false ->
  end_of_data p = true ->
  fetch_step server count s =
    Stop (acc s ++ items p, paging p) (sent s ++ [cur s]).
Proof.
  intros Hp Hreach Hend. unfold fetch_step. rewrite Hp, Hreach.
  destruct (is_empty (items p)) eqn:He; [reflexivity|].
  unfold end_of_data in Hend. rewrite He in Hend. simpl in Hend.
  apply bool_decide_eq_true in Hend. rewrite Hend. reflexivity.
Qed.

(** One turn of the loop on the page that reaches the count. *)
Lemma fetch_step_reached (count : option Z) (s : LoopState)
    (p : ConnectionPage) :
  server (cur s) = Delivered p ->
  reached count (acc s ++ items p) = true ->
  fetch_step server count s =
    Stop (truncate count (acc s ++ items p), paging p) (sent s ++ [cur s]).
Proof.
  intros Hp Hreach. unfold fetch_step. rewrite Hp, Hreach. reflexivity.
Qed.

Lemma fetch_loop_all (r : Request) (ps : list ConnectionPage) :
  serves server r ps ->
  forall (fuel : nat) (acc0 : list Json) (log0 : list Request),
    (length ps <= fuel)%nat ->
    exists p, last ps = Some p /\
      fetch_loop fuel server None {| cur := r; acc := acc0; sent := log0 |}
      = (Return (acc0 ++ all_items ps, paging p), log0 ++ trail r ps).
Proof.
  induction 1 as [r p Hp Hend | r p c ps Hp Hne Hc Hrest IH];
    intros fuel acc0 log0 Hfuel.
  - exists p. split; [reflexivity|].
    destruct fuel as [|fuel]; [simpl in Hfuel; lia|]. simpl.
    rewrite (fetch_step_end None _ p); [|exact Hp|reflexivity|exact Hend].
    simpl. rewrite all_items_cons. unfold all_items. simpl.
    rewrite !app_nil_r. destruct (next_cursor (paging p)); reflexivity.
  - destruct fuel as [|fuel]; [simpl in Hfuel; lia|].
    destruct (IH fuel (acc0 ++ items p) (log0 ++ [r])) as (q & Hlast & Hrun);
      [simpl in Hfuel; lia|].
    exists q. split.
    + destruct ps as [|p' ps']; [discriminate|]. exact Hlast.
    + simpl.
      rewrite (fetch_step_continue None _ p c);
        [|exact Hp|reflexivity|exact Hne|exact Hc].
      simpl. rewrite Hrun, Hc, all_items_cons, <- !app_assoc. reflexivity.
Qed.

(** C2: with [count = None] the fetcher returns the records of every page
    the server reports, in order, with the paging block of the last page;
    it sends one request per page, each addressed with the cursor of the
    page before; the last page is the first one that has no usable next
    cursor or is empty. *)
Theorem fetch_all_pages (a : ConnArgs) (ps : list ConnectionPage)
    (log : list Request) (fuel : nat) :
  conn_count a = None ->
  serves server (initial_request a) ps ->
  (length ps <= fuel)%nat ->
  exists p_last,
    last ps = Some p_last /\
    get_full_connections fuel server a log
      = (Return (all_items ps, paging p_last),
         log ++ trail (initial_request a) ps) /\
    length (trail (initial_request a) ps) = length ps /\
    end_of_data p_last = true /\
    (forall i p, ps !! i = Some p -> (S i < length ps)%nat ->
                 end_of_data p = false).
Proof.
  intros Hcount Hserves Hfuel.
  destruct (fetch_loop_all _ _ Hserves fuel [] log Hfuel) as (p & Hlast & Hrun).
  destruct (serves_last_page _ _ Hserves) as (q & Hlast' & Hend).
  assert (q = p) as -> by congruence.
  exists p. repeat split.
  - exact Hlast.
  - unfold get_full_connections. rewrite Hcount. exact Hrun.
  - exact (serves_trail_length _ _ Hserves).
  - exact Hend.
  - exact (serves_earlier_pages _ _ Hserves).
Qed.

Lemma total_cons (p : ConnectionPage) (ps : list ConnectionPage) :
  total (p :: ps) = Z.of_nat (length (items p)) + total ps.
Proof. unfold total. rewrite all_items_cons, length_app. lia. Qed.

Lemma total_app (ps qs : list ConnectionPage) :
  total (ps ++ qs) = total ps + total qs.
Proof. unfold total. rewrite all_items_app, length_app. lia. Qed.

Lemma reached_spec (n : Z) (xs : list Json) :
  reached (Some n) xs = true <-> n <= Z.of_nat (length xs).
Proof. simpl. apply Z.leb_le. Qed.

Lemma fetch_loop_count (n : Z) (r : Request) (ps : list ConnectionPage) :
  serves server r ps ->
  forall (fuel : nat) (acc0 : list Json) (log0 : list Request),
    (length ps <= fuel)%nat ->
    n <= Z.of_nat (length acc0) + total ps ->
    exists ps1 p ps2,
      ps = ps1 ++ p :: ps2 /\
      (ps1 = [] \/ Z.of_nat (length acc0) + total ps1 < n) /\
      n <= Z.of_nat (length acc0) + total (ps1 ++ [p]) /\
      fetch_loop fuel server (Some n) {| cur := r; acc := acc0; sent := log0 |}
      = (Return (take (Z.to_nat n) (acc0 ++ all_items (ps1 ++ [p])), paging p),
         log0 ++ take (S (length ps1)) (trail r ps)).
Proof.
  induction 1 as [r p Hp Hend | r p c ps Hp Hne Hc Hrest IH];
    intros fuel acc0 log0 Hfuel Hn.
  - exists [], p, []. rewrite total_cons in Hn. unfold total in Hn.
    simpl in Hn.
    assert (reached (Some n) (acc0 ++ items p) = true) as Hreach.
    { apply reached_spec. rewrite length_app. lia. }
    repeat split.
    + left. reflexivity.
    + simpl. rewrite total_cons. unfold total. simpl. lia.
    + destruct fuel as [|fuel]; [simpl in Hfuel; lia|]. simpl.
      rewrite (fetch_step_reached (Some n) _ p); [|exact Hp|exact Hreach]. simpl.
      unfold all_items. simpl. rewrite app_nil_r.
      destruct (next_cursor (paging p)); reflexivity.
  - destruct fuel as [|fuel]; [simpl in Hfuel; lia|].
    rewrite total_cons in Hn.
    destruct (reached (Some n) (acc0 ++ items p)) eqn:Hreach.
    + exists [], p, ps. repeat split.
      * left. reflexivity.
      * apply reached_spec in Hreach. rewrite length_app in Hreach.
        simpl. rewrite total_cons. unfold total. simpl. lia.
      * simpl. rewrite (fetch_step_reached (Some n) _ p);
          [|exact Hp|exact Hreach].
        simpl.
        unfold all_items. simpl. rewrite app_nil_r. reflexivity.
    + pose proof Hreach as Hbelow. simpl in Hbelow. apply Z.leb_gt in Hbelow.
      destruct (IH fuel (acc0 ++ items p) (log0 ++ [r]))
        as (ps1 & q & ps2 & Hsplit & Hfront & Hcover & Hrun).
      { simpl in Hfuel. lia. }
      { rewrite length_app. lia. }
      exists (p :: ps1), q, ps2. rewrite length_app in Hbelow, Hfront, Hcover.
      repeat split.
      * rewrite Hsplit. reflexivity.
      * right. rewrite total_cons. destruct Hfront as [-> | Hfront].
        -- unfold total. simpl. lia.
        -- lia.
      * simpl. rewrite total_cons. lia.
      * simpl. rewrite (fetch_step_continue (Some n) _ p c);
          [|exact Hp|exact Hreach|exact Hne|exact Hc].
        simpl. rewrite Hrun, Hc. simpl.
        rewrite all_items_cons, <- !app_assoc. reflexivity.
Qed.

(** C1: with [count = N], [N] not negative and less than the number of
    records the server has, the fetcher returns exactly the first [N]
    records accumulated, which are the first [N] the server has, with the
    paging block of the page on which the accumulator first reached [N]; no
    request is sent after that page. *)
Theorem fetch_count_truncates (a : ConnArgs) (n : Z)
    (ps : list ConnectionPage) (log : list Request) (fuel : nat) :
  conn_count a = Some n ->
  0 <= n ->
  serves server (initial_request a) ps ->
  n < total ps ->
  (length ps <= fuel)%nat ->
  exists ps1 p ps2 got,
    ps = ps1 ++ p :: ps2 /\
    (ps1 = [] \/ total ps1 < n) /\
    n <= total (ps1 ++ [p]) /\
    get_full_connections fuel server a log
      = (Return (got, paging p),
         log ++ take (S (length ps1)) (trail (initial_request a) ps)) /\
    got = take (Z.to_nat n) (all_items (ps1 ++ [p])) /\
    got = take (Z.to_nat n) (all_items ps) /\
    Z.of_nat (length got) = n.
Proof.
  intros Hcount Hpos Hserves Hless Hfuel.
  destruct (fetch_loop_count n _ _ Hserves fuel [] log Hfuel)
    as (ps1 & p & ps2 & Hsplit & Hfront & Hcover & Hrun).
  { simpl. lia. }
  simpl in Hfront, Hcover, Hrun.
  exists ps1, p, ps2, (take (Z.to_nat n) (all_items (ps1 ++ [p]))).
  assert (Z.to_nat n <= length (all_items (ps1 ++ [p])))%nat as Hlen.
  { unfold total in Hcover. lia. }
  repeat split.
  - exact Hsplit.
  - exact Hfront.
  - exact Hcover.
  - unfold get_full_connections. rewrite Hcount. exact Hrun.
  - rewrite Hsplit.
    replace (ps1 ++ p :: ps2) with ((ps1 ++ [p]) ++ ps2)
      by (rewrite <- app_assoc; reflexivity).
    rewrite (all_items_app (ps1 ++ [p]) ps2), take_app_le by exact Hlen.
    reflexivity.
  - rewrite length_take_le by exact Hlen. lia.
Qed.

Lemma reaches_run (count : option Z) (s0 s : LoopState) (k : nat) :
  reaches server count s0 k s ->
  forall fuel : nat,
    fetch_loop (k + fuel) server count s0 = fetch_loop fuel server count s.
Proof.
  induction 1 as [|k s s' Hreach IH Hstep]; intros fuel; [reflexivity|].
  replace (S k + fuel)%nat with (k + S fuel)%nat by lia.
  rewrite IH. simpl. rewrite Hstep. reflexivity.
Qed.

Lemma reaches_sent (count : option Z) (s0 s : LoopState) (k : nat) :
  reaches server count s0 k s ->
  length (sent s) = (length (sent s0) + k)%nat.
Proof.
  induction 1 as [|k s s' Hreach IH Hstep]; [lia|].
  unfold fetch_step in Hstep.
  destruct (server (cur s)) as [e|page]; [discriminate|].
  destruct (reached count (acc s ++ items page)); [discriminate|].
  destruct (is_empty (items page)); [discriminate|].
  destruct (next_cursor (paging page)); [|discriminate].
  injection Hstep as <-. simpl. rewrite length_app, IH. simpl. lia.
Qed.

Lemma truncate_below (count : option Z) (xs : list Json) :
  reached count xs = false -> truncate count xs = xs.
Proof.
  destruct count as [n|]; simpl; [|reflexivity].
  intros Hn. apply Z.leb_gt in Hn. apply take_ge. lia.
Qed.

(** C3: whenever a fetched page has no items, the loop ends on that page:
    the fetch returns what was accumulated before it (cut to [count] when
    one is given) with the paging block of the empty page, and the request
    for the empty page is the last one sent; this also holds while fewer
    records than a specified [count] have been accumulated, and whatever
    cursor the empty page names. *)
Theorem fetch_stops_on_empty_page (a : ConnArgs) (log : list Request)
    (k : nat) (s : LoopState) (page : ConnectionPage) (fuel : nat) :
  reaches server (conn_count a)
    {| cur := initial_request a; acc := []; sent := log |} k s ->
  server (cur s) = Delivered page ->
  items page = [] ->
  (k < fuel)%nat ->
  get_full_connections fuel server a log
    = (Return (truncate (conn_count a) (acc s), paging page),
       sent s ++ [cur s]) /\
  length (sent s ++ [cur s]) = (length log + k + 1)%nat /\
  (forall n, conn_count a = Some n -> Z.of_nat (length (acc s)) < n ->
             truncate (conn_count a) (acc s) = acc s).
Proof.
  intros Hreach Hpage Hempty Hfuel. repeat split.
  - unfold get_full_connections.
    replace fuel with (k + S (fuel - S k))%nat by lia.
    rewrite (reaches_run _ _ _ _ Hreach). simpl.
    unfold fetch_step. rewrite Hpage, Hempty, app_nil_r. simpl.
    destruct (reached (conn_count a) (acc s)) eqn:Hr; [reflexivity|].
    rewrite (truncate_below _ _ Hr). reflexivity.
  - rewrite length_app, (reaches_sent _ _ _ _ Hreach). simpl. lia.
  - intros n Hn Hbelow. apply truncate_below. rewrite Hn. simpl.
    apply Z.leb_gt. exact Hbelow.
Qed.

(** The fetcher never returns more records than a non-negative count. *)
Lemma fetch_loop_bounded (n : Z) (fuel : nat) :
  0 <= n ->
  forall (s : LoopState) (feeds : list Json) (pg : Paging)
         (log : list Request),
    fetch_loop fuel server (Some n) s = (Return (feeds, pg), log) ->
    Z.of_nat (length feeds) <= n.
Proof.
  intros Hpos. induction fuel as [|fuel IH]; intros s feeds pg log Hrun;
    [discriminate|].
  simpl in Hrun. unfold fetch_step in Hrun.
  destruct (server (cur s)) as [e|page]; [discriminate|].
  destruct (reached (Some n) (acc s ++ items page)) eqn:Hreach.
  - injection Hrun as <- _ _. simpl. rewrite length_take. lia.
  - apply Z.leb_gt in Hreach.
    destruct (is_empty (items page)).
    + injection Hrun as <- _ _. lia.
    + destruct (next_cursor (paging page)).
      * apply (IH _ _ _ _ Hrun).
      * injection Hrun as <- _ _. lia.
Qed.

End FetcherFacts.

Section FetcherScenario.
Import Fetcher Scenario.

Lemma videos_served (count : option Z) :
  serves videos_server (initial_request (videos_args count)) [page_1; page_2].
Proof.
  apply serves_more with (c := "after-5"); [reflexivity..|].
  apply serves_last; reflexivity.
Qed.

(** Section 8: [count=3] takes the first three records of page 1 with one
    request; [count=None] takes all nine records with two requests. *)
Example videos_count_3 :
  get_full_connections 2 videos_server (videos_args (Some 3)) []
  = (Return (record <$> [1; 2; 3], paging page_1),
     [initial_request (videos_args (Some 3))]).
Proof. reflexivity. Qed.

Example videos_count_none :
  get_full_connections 2 videos_server (videos_args None) []
  = (Return (record <$> [1; 2; 3; 4; 5; 6; 7; 8; 9], paging page_2),
     [initial_request (videos_args None);
      with_cursor (initial_request (videos_args None)) "after-5"]).
Proof. reflexivity. Qed.

(** A count the server cannot fill ends with what there is. *)
Example videos_count_20 :
  fst (get_full_connections 5 videos_server (videos_args (Some 20)) [])
  = Return (record <$> [1; 2; 3; 4; 5; 6; 7; 8; 9], paging page_2).
Proof. reflexivity. Qed.

(** Too few steps for the bounded loop show as such, not as a result. *)
Example endless_out_of_fuel :
  fst (get_full_connections 7 endless_server (videos_args None) [])
  = OutOfFuel.
Proof. reflexivity. Qed.

Lemma fetch_count_truncates_witness :
  exists ps1 p ps2 got,
    [page_1; page_2] = ps1 ++ p :: ps2 /\
    (ps1 = [] \/ total ps1 < 3) /\
    3 <= total (ps1 ++ [p]) /\
    get_full_connections 2 videos_server (videos_args (Some 3)) []
      = (Return (got, paging p),
         [] ++ take (S (length ps1))
                 (trail (initial_request (videos_args (Some 3)))
                    [page_1; page_2])) /\
    got = take (Z.to_nat 3) (all_items (ps1 ++ [p])) /\
    got = take (Z.to_nat 3) (all_items [page_1; page_2]) /\
    Z.of_nat (length got) = 3.
Proof.
  apply (fetch_count_truncates videos_server (videos_args (Some 3)) 3
           [page_1; page_2] [] 2).
  - reflexivity.
  - lia.
  - apply videos_served.
  - reflexivity.
  - simpl. lia.
Defined.

Lemma fetch_all_pages_witness :
  exists p_last,
    last [page_1; page_2] = Some p_last /\
    get_full_connections 2 videos_server (videos_args None) []
      = (Return (all_items [page_1; page_2], paging p_last),
         [] ++ trail (initial_request (videos_args None)) [page_1; page_2]) /\
    length (trail (initial_request (videos_args None)) [page_1; page_2])
      = length [page_1; page_2] /\
    end_of_data p_last = true /\
    (forall i p, [page_1; page_2] !! i = Some p ->
                 (S i < length [page_1; page_2])%nat ->
                 end_of_data p = false).
Proof.
  apply (fetch_all_pages videos_server (videos_args None) [page_1; page_2]
           [] 2).
  - reflexivity.
  - apply videos_served.
  - simpl. lia.
Defined.

Lemma fetch_stops_on_empty_page_witness :
  get_full_connections 2 drained_server (videos_args (Some 100)) []
    = (Return (truncate (Some 100) (items page_1), paging empty_page),
       sent (drained_after_first (Some 100))
         ++ [cur (drained_after_first (Some 100))]) /\
  length (sent (drained_after_first (Some 100))
            ++ [cur (drained_after_first (Some 100))]) = 2%nat /\
  (forall n, Some 100 = Some n ->
             Z.of_nat (length (items page_1)) < n ->
             truncate (Some 100) (items page_1) = items page_1).
Proof.
  apply (fetch_stops_on_empty_page drained_server (videos_args (Some 100)) []
           1 (drained_after_first (Some 100)) empty_page 2).
  - eapply reaches_next; [apply reaches_start | reflexivity].
  - reflexivity.
  - reflexivity.
  - lia.
Defined.

End FetcherScenario.

(** ** The methods of [FacebookPage] *)

Section PageFacts.
Import Params Graph FacebookPage.
Context `{Lib : Library} {World : Type}.
Variable client : Client World.

(** The fields [get_info] asks for. *)
Local Abbreviation info_fields fields :=
  (enf_comma_separated "fields"
     (match fields with
      | None => Some (VList PAGE_PUBLIC_FIELDS)
      | Some v => Some v
      end)).

Lemma truthy_some (x : option string) :
  truthy x = true -> exists s, x = Some s /\ s <> "" /\ default "" x = s.
Proof.
  destruct x as [[|c s]|]; simpl; try discriminate.
  intros _. exists (String c s). repeat split. discriminate.
Qed.

(** With a target resolved, [get_info] makes exactly one call on the
    client, for that target. *)
Lemma get_info_calls (target : string) (flds : option string)
    (return_json : bool) (st : State World) :
  calls (snd ((data <- call_get_object client target flds ;;
               if return_json then ret (PageJson data)
               else ret (PageObject (Page_new_from_json_dict data))) st))
  = calls st ++ [CallGetObject target flds].
Proof.
  unfold bind, call_get_object.
  destruct (client_get_object client target flds (world st)) as [[d|e|] w];
    destruct return_json; reflexivity.
Qed.

Lemma get_info_by_page_id (page_id username : option string)
    (fields : option FieldValue) (return_json : bool) (st : State World) :
  truthy page_id = true ->
  calls (snd (get_info client page_id username fields return_json st))
  = calls st ++ [CallGetObject (default "" page_id) (info_fields fields)].
Proof.
  intros Hp. unfold get_info. rewrite Hp. apply get_info_calls.
Qed.

Lemma get_info_by_username (page_id username : option string)
    (fields : option FieldValue) (return_json : bool) (st : State World) :
  truthy page_id = false ->
  truthy username = true ->
  calls (snd (get_info client page_id username fields return_json st))
  = calls st ++ [CallGetObject (default "" username) (info_fields fields)].
Proof.
  intros Hp Hu. unfold get_info. rewrite Hp, Hu. apply get_info_calls.
Qed.

Lemma get_info_no_target (page_id username : option string)
    (fields : option FieldValue) (return_json : bool) (st : State World) :
  truthy page_id = false ->
  truthy username = false ->
  get_info client page_id username fields return_json st
  = (Raise missing_target, st).
Proof.
  intros Hp Hu. unfold get_info. rewrite Hp, Hu. reflexivity.
Qed.

(** C4, amended: [get_info] targets [page_id] when it is present and not
    empty; otherwise it targets [username] when that is present and not
    empty; when both are absent (or empty) it raises [LibraryError], the
    error for missing parameters, with no call made on the client and the
    world untouched. *)
Theorem get_info_target (page_id username : option string)
    (fields : option FieldValue) (return_json : bool) (st : State World) :
  (truthy page_id = true ->
   exists p, page_id = Some p /\ p <> "" /\
     calls (snd (get_info client page_id username fields return_json st))
     = calls st ++ [CallGetObject p (info_fields fields)]) /\
  (truthy page_id = false -> truthy username = true ->
   exists u, username = Some u /\ u <> "" /\
     calls (snd (get_info client page_id username fields return_json st))
     = calls st ++ [CallGetObject u (info_fields fields)]) /\
  (truthy page_id = false -> truthy username = false ->
   get_info client page_id username fields return_json st
   = (Raise missing_target, st)) /\
  (page_id = None -> username = None ->
   get_info client page_id username fields return_json st
   = (Raise missing_target, st)).
Proof.
  repeat split.
  - intros Hp. destruct (truthy_some _ Hp) as (p & Hsome & Hne & Hdef).
    exists p. repeat split; [exact Hsome | exact Hne |].
    rewrite <- Hdef. apply get_info_by_page_id, Hp.
  - intros Hp Hu. destruct (truthy_some _ Hu) as (u & Hsome & Hne & Hdef).
    exists u. repeat split; [exact Hsome | exact Hne |].
    rewrite <- Hdef. apply get_info_by_username; assumption.
  - apply get_info_no_target.
  - intros -> ->. apply get_info_no_target; reflexivity.
Qed.

(** C9: the resolution tests truthiness: with an empty [page_id] and a
    non-empty [username] the one call made targets [username], exactly as
    when [page_id] is [None]; with both empty the call raises the
    missing-parameter [LibraryError] and nothing is requested. *)
Theorem get_info_truthiness (u : string) (fields : option FieldValue)
    (return_json : bool) (st : State World) :
  u <> "" ->
  calls (snd (get_info client (Some "") (Some u) fields return_json st))
    = calls st ++ [CallGetObject u (info_fields fields)] /\
  get_info client (Some "") (Some u) fields return_json st
    = get_info client None (Some u) fields return_json st /\
  get_info client (Some "") (Some "") fields return_json st
    = (Raise missing_target, st).
Proof.
  intros Hu. split; [|split].
  - destruct u as [|c u]; [congruence|].
    apply (get_info_by_username (Some "") (Some (String c u)));
      reflexivity.
  - reflexivity.
  - apply get_info_no_target; reflexivity.
Qed.

(** The arguments [get_feed] hands to [client.get_full_connections]. *)
Local Abbreviation feed_args page_id fields since until count limit source :=
  {| conn_object_id := page_id;
     conn_connection := arg_or (Some "feed") source;
     conn_count := arg_or (Some 10) count;
     conn_limit := arg_or (Some 10) limit;
     conn_fields :=
       enf_comma_separated "fields"
         (match fields with
          | None =>
              Some (VList (POST_PUBLIC_FIELDS
                             ++ POST_CONNECTIONS_SUMMERY_FIELDS))
          | Some v => Some v
          end);
     conn_since := since;
     conn_until := until |}.

Lemma get_feed_calls (page_id : string) (fields : option FieldValue)
    (since until : option string) (count limit : Arg (option Z))
    (source : Arg (option string)) (return_json : bool) (st : State World) :
  calls (snd (get_feed client page_id fields since until count limit source
                return_json st))
  = calls st
    ++ [CallGetFullConnections
          (feed_args page_id fields since until count limit source)].
Proof.
  unfold get_feed, bind, call_get_full_connections.
  destruct (client_get_full_connections client _ (world st))
    as [[[feeds pg]|e|] w]; destruct return_json; reflexivity.
Qed.

Lemma get_feed_returns (page_id : string) (fields : option FieldValue)
    (since until : option string) (count limit : Arg (option Z))
    (source : Arg (option string)) (return_json : bool) (st : State World)
    (feeds : list Json) (pg : Paging) (w : World) :
  client_get_full_connections client
    (feed_args page_id fields since until count limit source) (world st)
  = (Return (feeds, pg), w) ->
  get_feed client page_id fields since until count limit source return_json st
  = (Return (if return_json then FeedsJson feeds
             else FeedsPosts (Post_new_from_json_dict <$> feeds), pg),
     {| world := w;
        calls := calls st
                 ++ [CallGetFullConnections
                       (feed_args page_id fields since until count limit
                          source)] |}).
Proof.
  intros Hfetch. unfold get_feed, bind, call_get_full_connections.
  rewrite Hfetch. destruct return_json; reflexivity.
Qed.

(** C5: whatever [(feeds, paging)] the client's connection fetch produces,
    [get_feed] with [return_json=True] returns these raw [feeds] and this
    [paging], and with [return_json=False] it returns the constructor
    [Post.new_from_json_dict] applied to each of the same [feeds], in
    order, with the same [paging]; the fetch hands over raw records only,
    the mapping is done here. *)
Theorem get_feed_return_json (page_id : string) (fields : option FieldValue)
    (since until : option string) (count limit : Arg (option Z))
    (source : Arg (option string)) (st : State World)
    (feeds : list Json) (pg : Paging) (w : World) :
  client_get_full_connections client
    (feed_args page_id fields since until count limit source) (world st)
  = (Return (feeds, pg), w) ->
  exists st',
    get_feed client page_id fields since until count limit source true st
    = (Return (FeedsJson feeds, pg), st') /\
    get_feed client page_id fields since until count limit source false st
    = (Return (FeedsPosts (Post_new_from_json_dict <$> feeds), pg), st').
Proof.
  intros Hfetch. eexists. split.
  - apply (get_feed_returns _ _ _ _ _ _ _ true _ _ _ _ Hfetch).
  - apply (get_feed_returns _ _ _ _ _ _ _ false _ _ _ _ Hfetch).
Qed.

(** C8: on the same arguments, passed or left out alike, [get_posts],
    [get_published_posts] and [get_tagged_posts] are [get_feed] with
    [source] set to ["posts"], ["published_posts"] and ["tagged"]. *)
Theorem get_posts_are_get_feed (page_id : string)
    (fields : option FieldValue) (since until : option string)
    (count limit : Arg (option Z)) (return_json : bool) :
  get_posts client page_id fields since until count limit return_json
    = get_feed client page_id fields since until count limit
        (Passed (Some "posts")) return_json /\
  get_published_posts client page_id fields since until count limit
      return_json
    = get_feed client page_id fields since until count limit
        (Passed (Some "published_posts")) return_json /\
  get_tagged_posts client page_id fields since until count limit return_json
    = get_feed client page_id fields since until count limit
        (Passed (Some "tagged")) return_json.
Proof.
  unfold get_posts, get_published_posts, get_tagged_posts, get_feed.
  destruct count, limit; repeat split; reflexivity.
Qed.

(** C10: with [count] and [limit] left out, [get_feed] calls
    [client.get_full_connections] with [count=10] and [limit=10], just as
    if both had been passed as 10: the default is neither "all pages"
    ([count=None]) nor the server's page size ([limit=None]).  The three
    wrappers do the same.  So with a client that keeps to the count, at
    most 10 items are returned by default. *)
Theorem get_feed_defaults (page_id : string) (fields : option FieldValue)
    (since until : option string) (source : Arg (option string))
    (return_json : bool) (st : State World) :
  (exists a,
      calls (snd (get_feed client page_id fields since until Omitted Omitted
                    source return_json st))
      = calls st ++ [CallGetFullConnections a] /\
      conn_count a = Some 10 /\ conn_limit a = Some 10) /\
  get_feed client page_id fields since until Omitted Omitted source
      return_json
    = get_feed client page_id fields since until (Passed (Some 10))
        (Passed (Some 10)) source return_json /\
  get_posts client page_id fields since until Omitted Omitted return_json
    = get_feed client page_id fields since until Omitted Omitted
        (Passed (Some "posts")) return_json /\
  get_published_posts client page_id fields since until Omitted Omitted
      return_json
    = get_feed client page_id fields since until Omitted Omitted
        (Passed (Some "published_posts")) return_json /\
  get_tagged_posts client page_id fields since until Omitted Omitted
      return_json
    = get_feed client page_id fields since until Omitted Omitted
        (Passed (Some "tagged")) return_json /\
  (honours_count client ->
   forall feeds pg st',
     get_feed client page_id fields since until Omitted Omitted source
       return_json st = (Return (feeds, pg), st') ->
     (feeds_length feeds <= 10)%nat).
Proof.
  split; [|split; [|split; [|split; [|split]]]]; try reflexivity.
  - eexists. split; [apply get_feed_calls|]. split; reflexivity.
  - intros Hkeeps feeds pg st' Hrun.
    unfold get_feed, bind, call_get_full_connections in Hrun.
    destruct (client_get_full_connections client _ (world st))
      as [[[raw pg']|e|] w] eqn:Hfetch; try discriminate.
    assert (Z.of_nat (length raw) <= 10) as Hraw.
    { apply (Hkeeps _ _ _ _ _ 10 Hfetch); [reflexivity | lia]. }
    destruct return_json; injection Hrun as <- _ _; simpl.
    + lia.
    + rewrite length_fmap. lia.
Qed.

End PageFacts.

(** ** The scenarios, run on the graph client *)

Section PageScenario.
Import Params Fetcher Graph FacebookPage Scenario.

(** The fetcher keeps to the count, and so does the client built on it. *)
Lemma graph_client_honours_count (fuel : nat)
    (lookup : Request -> Outcome Json) (server : Server) :
  honours_count (graph_client fuel lookup server).
Proof.
  intros a w feeds pg w' n Hrun Hcount Hpos. simpl in Hrun.
  unfold get_full_connections in Hrun. rewrite Hcount in Hrun.
  apply (fetch_loop_bounded server n fuel Hpos _ _ _ _ Hrun).
Qed.

Local Existing Instance library.

(** C4 as stated fails: with [page_id=""] (present, but empty) and
    [username="facebook"] the request targets the username, so resolution
    is not by presence. *)
Lemma get_info_not_by_presence :
  ~ resolves_by_presence (client videos_server).
Proof.
  intros Hclaim.
  destruct (Hclaim (Some "") (Some "facebook") None true fresh)
    as [flds Hcalls].
  vm_compute in Hcalls. discriminate Hcalls.
Qed.

Lemma get_info_target_witness :
  calls (snd (get_info (client videos_server) (Some "20531316728")
                (Some "facebook") (Some (VStr "id,name")) true fresh))
    = [CallGetObject "20531316728" (Some "id,name")] /\
  calls (snd (get_info (client videos_server) None (Some "facebook")
                (Some (VStr "id,name")) true fresh))
    = [CallGetObject "facebook" (Some "id,name")] /\
  get_info (client videos_server) None None (Some (VStr "id,name")) true fresh
    = (Raise missing_target, fresh).
Proof.
  split; [|split].
  - destruct (proj1 (get_info_target (client videos_server)
                       (Some "20531316728") (Some "facebook")
                       (Some (VStr "id,name")) true fresh) eq_refl)
      as (p & Hp & _ & Hcalls).
    injection Hp as <-. exact Hcalls.
  - destruct (proj1 (proj2 (get_info_target (client videos_server) None
                              (Some "facebook") (Some (VStr "id,name")) true
                              fresh)) eq_refl eq_refl)
      as (u & Hu & _ & Hcalls).
    injection Hu as <-. exact Hcalls.
  - exact (proj2 (proj2 (proj2 (get_info_target (client videos_server) None
                                  None (Some (VStr "id,name")) true fresh)))
             eq_refl eq_refl).
Defined.

Lemma get_info_truthiness_witness :
  calls (snd (get_info (client videos_server) (Some "") (Some "facebook")
                None false fresh))
    = [CallGetObject "facebook" (Some "id,name,username")] /\
  get_info (client videos_server) (Some "") (Some "facebook") None false fresh
    = get_info (client videos_server) None (Some "facebook") None false fresh /\
  get_info (client videos_server) (Some "") (Some "") None false fresh
    = (Raise missing_target, fresh).
Proof.
  assert ("facebook" <> "") as Hname by discriminate.
  exact (get_info_truthiness (client videos_server) "facebook" None false
           fresh Hname).
Defined.

Lemma get_feed_return_json_witness :
  exists st',
    get_feed (client videos_server) "367152833370567" None None None
      (Passed (Some 3)) (Passed (Some 5)) (Passed (Some "videos")) true fresh
    = (Return (FeedsJson (record <$> [1; 2; 3]), paging page_1), st') /\
    get_feed (client videos_server) "367152833370567" None None None
      (Passed (Some 3)) (Passed (Some 5)) (Passed (Some "videos")) false fresh
    = (Return (FeedsPosts (record_id <$> (record <$> [1; 2; 3])),
               paging page_1), st').
Proof.
  exact (get_feed_return_json (client videos_server) "367152833370567" None
           None None (Passed (Some 3)) (Passed (Some 5))
           (Passed (Some "videos")) fresh (record <$> [1; 2; 3])
           (paging page_1)
           [initial_request
              {| conn_object_id := "367152833370567";
                 conn_connection := Some "videos";
                 conn_count := Some 3;
                 conn_limit := Some 5;
                 conn_fields := Some "id,message,comments.summary(true)";
                 conn_since := None;
                 conn_until := None |}]
           eq_refl).
Defined.

(** By default the endless feed is cut to ten records, from two pages. *)
Example endless_feed_default :
  fst (get_feed (client endless_server) "20531316728" None None None Omitted
         Omitted Omitted false fresh)
  = Return (@FeedsPosts library [1; 2; 3; 4; 5; 6; 1; 2; 3; 4],
            paging endless_page).
Proof. reflexivity. Qed.

Lemma get_feed_defaults_witness :
  (feeds_length (@FeedsPosts library [1; 2; 3; 4; 5; 6; 1; 2; 3; 4]%Z) <= 10)%nat.
Proof.
  apply (proj2 (proj2 (proj2 (proj2 (proj2
           (get_feed_defaults (client endless_server) "20531316728" None None
              None Omitted false fresh)))))
           (graph_client_honours_count _ _ _)
           (@FeedsPosts library [1; 2; 3; 4; 5; 6; 1; 2; 3; 4]%Z)
           (paging endless_page)
           (snd (get_feed (client endless_server) "20531316728" None None None
                   Omitted Omitted Omitted false fresh))).
  reflexivity.
Defined.

End PageScenario.

(** ** More on the methods of [FacebookPage] *)

Section DictComprehension.
Import PageBatch.
Context {A B : Type} (f : A -> B).

Local Abbreviation store acc kv := (<[kv.1 := f kv.2]> acc).

Lemma foldl_store_other (l : list (string * A)) (acc : gmap string B)
    (k : string) :
  k ∉ l.*1 -> foldl (fun acc kv => store acc kv) acc l !! k = acc !! k.
Proof.
  revert acc. induction l as [|[k' v'] l IH]; intros acc Hk; [reflexivity|].
  simpl in *. apply not_elem_of_cons in Hk as [Hne Hk].
  rewrite (IH _ Hk). apply lookup_insert_ne. congruence.
Qed.

Lemma foldl_store_member (l : list (string * A)) (acc : gmap string B)
    (k : string) (v : A) :
  NoDup l.*1 -> (k, v) ∈ l ->
  foldl (fun acc kv => store acc kv) acc l !! k = Some (f v).
Proof.
  revert acc. induction l as [|[k' v'] l IH]; intros acc Hnd Hin.
  - apply elem_of_nil in Hin. destruct Hin.
  - simpl in *. apply NoDup_cons in Hnd as [Hfresh Hnd].
    apply elem_of_cons in Hin as [Heq | Hin].
    + injection Heq as -> ->.
      rewrite (foldl_store_other _ _ _ Hfresh). apply lookup_insert_eq.
    + apply IH; assumption.
Qed.

(** A dict comprehension over the items of a dict keeps every key and
    holds under it the image of the value. *)
Lemma dict_comprehension_lookup (data : gmap string A) (k : string) :
  dict_comprehension f data !! k = f <$> data !! k.
Proof.
  unfold dict_comprehension. destruct (data !! k) as [v|] eqn:Hk; simpl.
  - apply foldl_store_member; [apply NoDup_fst_map_to_list|].
    apply elem_of_map_to_list, Hk.
  - rewrite foldl_store_other; [apply lookup_empty|].
    intros Hin. apply list_elem_of_fmap in Hin as ([k' v] & Heq & Hin).
    simpl in Heq. subst k'. apply elem_of_map_to_list in Hin. congruence.
Qed.

Lemma dict_comprehension_fmap (data : gmap string A) :
  dict_comprehension f data = f <$> data.
Proof.
  apply map_eq. intros k.
  rewrite dict_comprehension_lookup, lookup_fmap. reflexivity.
Qed.

End DictComprehension.

Section InfoAndFeedFacts.
Import Params Graph FacebookPage.
Context `{Lib : Library} {World : Type}.
Variable client : Client World.

Local Abbreviation page_fields fields :=
  (enf_comma_separated "fields"
     (match fields with
      | None => Some (VList PAGE_PUBLIC_FIELDS)
      | Some v => Some v
      end)).

Local Abbreviation post_fields fields :=
  (enf_comma_separated "fields"
     (match fields with
      | None =>
          Some (VList (POST_PUBLIC_FIELDS ++ POST_CONNECTIONS_SUMMERY_FIELDS))
      | Some v => Some v
      end)).

Local Abbreviation connection_args page_id fields since until count limit
    source :=
  {| conn_object_id := page_id;
     conn_connection := arg_or (Some "feed") source;
     conn_count := arg_or (Some 10) count;
     conn_limit := arg_or (Some 10) limit;
     conn_fields := post_fields fields;
     conn_since := since;
     conn_until := until |}.

(** The identifier [get_info] settles on, if any. *)
Local Abbreviation resolved page_id username target :=
  (truthy page_id = true /\ page_id = Some target \/
   truthy page_id = false /\ truthy username = true /\ username = Some target).

(** What [get_info] does once its target is known. *)
Local Abbreviation fetch_info target fields return_json st :=
  (match client_get_object client target (page_fields fields) (world st) with
   | (Return data, w) =>
       (Return (if return_json then PageJson data
                else PageObject (Page_new_from_json_dict data)),
        {| world := w;
           calls := calls st
                    ++ [CallGetObject target (page_fields fields)] |})
   | (Raise e, w) =>
       (Raise e,
        {| world := w;
           calls := calls st
                    ++ [CallGetObject target (page_fields fields)] |})
   | (OutOfFuel, w) =>
       (OutOfFuel,
        {| world := w;
           calls := calls st
                    ++ [CallGetObject target (page_fields fields)] |})
   end).

Lemma get_info_resolved (page_id username : option string)
    (fields : option FieldValue) (return_json : bool) (st : State World)
    (target : string) :
  resolved page_id username target ->
  get_info client page_id username fields return_json st
  = fetch_info target fields return_json st.
Proof.
  intros [[Hp ->] | (Hp & Hu & ->)]; unfold get_info, bind, call_get_object.
  - rewrite Hp. simpl.
    destruct (client_get_object client target _ (world st)) as [[d|e|] w];
      destruct return_json; reflexivity.
  - rewrite Hp, Hu. simpl.
    destruct (client_get_object client target _ (world st)) as [[d|e|] w];
      destruct return_json; reflexivity.
Qed.

Lemma get_info_cases (page_id username : option string) :
  (exists target, resolved page_id username target) \/
  (truthy page_id = false /\ truthy username = false).
Proof.
  destruct (truthy page_id) eqn:Hp.
  - destruct (truthy_some _ Hp) as (p & -> & _ & _).
    left. exists p. left. split; reflexivity.
  - destruct (truthy username) eqn:Hu.
    + destruct (truthy_some _ Hu) as (u & -> & _ & _).
      left. exists u. right. split; [|split]; reflexivity.
    + right. split; reflexivity.
Qed.

(** X1: what [get_info] returns with [return_json=False] is
    [Page.new_from_json_dict] of the record it returns with
    [return_json=True], and the two runs leave the same state; this holds
    in both directions, for every returning run. *)
Theorem get_info_return_json (page_id username : option string)
    (fields : option FieldValue) (st st' : State World) :
  (forall r,
      get_info client page_id username fields true st = (Return r, st') ->
      exists data, r = PageJson data /\
        get_info client page_id username fields false st
        = (Return (PageObject (Page_new_from_json_dict data)), st')) /\
  (forall r,
      get_info client page_id username fields false st = (Return r, st') ->
      exists data, r = PageObject (Page_new_from_json_dict data) /\
        get_info client page_id username fields true st
        = (Return (PageJson data), st')).
Proof.
  destruct (get_info_cases page_id username) as [[target Ht] | [Hp Hu]].
  - rewrite !(get_info_resolved _ _ _ _ _ _ Ht).
    destruct (client_get_object client target _ (world st)) as [[d|e|] w];
      split; intros r Hrun; try discriminate;
      injection Hrun as <- <-; exists d; split; reflexivity.
  - rewrite !(get_info_no_target client _ _ _ _ _ Hp Hu).
    split; intros r Hrun; discriminate.
Qed.

(** X2: a non-empty [page_id] wins: the run of [get_info] is then the same
    whatever [username] is, given or not. *)
Theorem get_info_page_id_first (page_id username username' : option string)
    (fields : option FieldValue) (return_json : bool) (st : State World) :
  truthy page_id = true ->
  get_info client page_id username fields return_json st
  = get_info client page_id username' fields return_json st.
Proof.
  intros Hp. destruct (truthy_some _ Hp) as (p & -> & _ & _).
  rewrite (get_info_resolved _ username _ _ _ p) by (left; auto).
  rewrite (get_info_resolved _ username' _ _ _ p) by (left; auto).
  reflexivity.
Qed.

(** X3: [get_info] raises in two cases only: no identifier is usable, and
    then the error is the missing-parameter [LibraryError] and the state is
    untouched; or the one call on the client raises, and then that error is
    passed on unchanged, the call being recorded.  [return_json] makes no
    difference. *)
Theorem get_info_raises (page_id username : option string)
    (fields : option FieldValue) (return_json : bool) (st st' : State World)
    (e : Exception) :
  get_info client page_id username fields return_json st = (Raise e, st')
  <->
  (truthy page_id = false /\ truthy username = false /\
   e = missing_target /\ st' = st) \/
  (exists target w,
      resolved page_id username target /\
      client_get_object client target (page_fields fields) (world st)
      = (Raise e, w) /\
      st' = {| world := w;
               calls := calls st
                        ++ [CallGetObject target (page_fields fields)] |}).
Proof.
  destruct (get_info_cases page_id username) as [[target Ht] | [Hp Hu]].
  - rewrite (get_info_resolved _ _ _ _ _ _ Ht). split.
    + intros Hrun. right. exists target.
      destruct (client_get_object client target _ (world st))
        as [[d|e'|] w]; try discriminate.
      injection Hrun as <- <-. exists w. auto.
    + intros [(Hp & Hu & _) | (target' & w & Ht' & Hcall & ->)].
      * destruct Ht as [[Hp' _] | (_ & Hu' & _)]; congruence.
      * assert (target' = target) as ->.
        { destruct Ht as [[? ?] | (? & ? & ?)];
            destruct Ht' as [[? ?] | (? & ? & ?)]; congruence. }
        rewrite Hcall. reflexivity.
  - rewrite (get_info_no_target client _ _ _ _ _ Hp Hu). split.
    + intros Hrun. injection Hrun as <- <-. left. auto.
    + intros [(_ & _ & -> & ->) | (target & w & Ht & _)]; [reflexivity|].
      destruct Ht as [[Hp' _] | (_ & Hu' & _)]; congruence.
Qed.

(** The run of [get_feed], by the answer of the client. *)
Lemma get_feed_run (page_id : string) (fields : option FieldValue)
    (since until : option string) (count limit : Arg (option Z))
    (source : Arg (option string)) (return_json : bool) (st : State World) :
  get_feed client page_id fields since until count limit source return_json st
  = let a := connection_args page_id fields since until count limit source in
    let st_after w :=
      {| world := w; calls := calls st ++ [CallGetFullConnections a] |} in
    match client_get_full_connections client a (world st) with
    | (Return (feeds, pg), w) =>
        (Return (if return_json then FeedsJson feeds
                 else FeedsPosts (Post_new_from_json_dict <$> feeds), pg),
         st_after w)
    | (Raise e, w) => (Raise e, st_after w)
    | (OutOfFuel, w) => (OutOfFuel, st_after w)
    end.
Proof.
  unfold get_feed, bind, call_get_full_connections. simpl.
  destruct (client_get_full_connections client _ (world st))
    as [[[feeds pg]|e|] w]; destruct return_json; reflexivity.
Qed.

(** X4: [get_feed] checks nothing itself: it raises exactly when the call
    on the client raises, with the same error, whatever [page_id] is (the
    empty string too) and whatever [return_json] is. *)
Theorem get_feed_raises (page_id : string) (fields : option FieldValue)
    (since until : option string) (count limit : Arg (option Z))
    (source : Arg (option string)) (return_json : bool)
    (st st' : State World) (e : Exception) :
  get_feed client page_id fields since until count limit source return_json st
  = (Raise e, st')
  <->
  exists w,
    client_get_full_connections client
      (connection_args page_id fields since until count limit source)
      (world st)
    = (Raise e, w) /\
    st' = {| world := w;
             calls := calls st
                      ++ [CallGetFullConnections
                            (connection_args page_id fields since until count
                               limit source)] |}.
Proof.
  rewrite get_feed_run. simpl.
  destruct (client_get_full_connections client _ (world st))
    as [[[feeds pg]|e'|] w]; split.
  - discriminate.
  - intros (w' & Hcall & _). discriminate.
  - intros Hrun. injection Hrun as <- <-. exists w. auto.
  - intros (w' & Hcall & ->). injection Hcall as <- <-. reflexivity.
  - discriminate.
  - intros (w' & Hcall & _). discriminate.
Qed.

(** X5: seen from the caller, the posts of [return_json=False] are the
    records of [return_json=True] in the same order and number, each
    mapped by [Post.new_from_json_dict]; paging and final state agree. *)
Theorem get_feed_posts_in_order (page_id : string)
    (fields : option FieldValue) (since until : option string)
    (count limit : Arg (option Z)) (source : Arg (option string))
    (st st' : State World) (r : Feeds) (pg : Paging) :
  get_feed client page_id fields since until count limit source true st
  = (Return (r, pg), st') ->
  exists feeds posts,
    r = FeedsJson feeds /\
    get_feed client page_id fields since until count limit source false st
    = (Return (FeedsPosts posts, pg), st') /\
    length posts = length feeds /\
    (forall i : nat, posts !! i = Post_new_from_json_dict <$> feeds !! i).
Proof.
  rewrite !get_feed_run. simpl.
  destruct (client_get_full_connections client _ (world st))
    as [[[feeds pg']|e|] w]; try discriminate.
  intros Hrun. injection Hrun as <- <- <-.
  exists feeds, (Post_new_from_json_dict <$> feeds). repeat split.
  - apply length_fmap.
  - intros i. apply list_lookup_fmap.
Qed.

(** X6: every run of [get_feed] makes exactly one call on the client,
    also when that call fails: it carries [page_id], [since] and [until]
    as given, the connection named by [source] (["feed"] when left out),
    and the world is left as that one call leaves it. *)
Theorem get_feed_one_call (page_id : string) (fields : option FieldValue)
    (since until : option string) (count limit : Arg (option Z))
    (source : Arg (option string)) (return_json : bool) (st : State World) :
  exists a,
    calls (snd (get_feed client page_id fields since until count limit source
                  return_json st))
    = calls st ++ [CallGetFullConnections a] /\
    conn_object_id a = page_id /\
    conn_since a = since /\
    conn_until a = until /\
    conn_connection a = arg_or (Some "feed") source /\
    world (snd (get_feed client page_id fields since until count limit source
                  return_json st))
    = snd (client_get_full_connections client a (world st)).
Proof.
  exists (connection_args page_id fields since until count limit source).
  rewrite get_feed_run. simpl.
  destruct (client_get_full_connections client _ (world st))
    as [[[feeds pg]|e|] w]; repeat split.
Qed.

End InfoAndFeedFacts.

Section BatchFacts.
Import Params PageBatch.
Context `{Lib : Library} {World : Type}.
Variable get_objects :
  option string -> option string -> World ->
  Outcome (gmap string Json) * World.

Local Abbreviation batch_fields fields :=
  (enf_comma_separated "fields"
     (match fields with
      | None => Some (VList PAGE_PUBLIC_FIELDS)
      | Some v => Some v
      end)).

(** X7: the pages [get_batch] returns with [return_json=False] are keyed
    exactly like the records it returns with [return_json=True]: no id is
    lost or added, and under each id is [Page.new_from_json_dict] of the
    record under that id; the world is left the same. *)
Theorem get_batch_pages (ids fields : option FieldValue) (w w' : World)
    (r : Batch) :
  get_batch get_objects ids fields true w = (Return r, w') ->
  exists data pages,
    r = BatchJson data /\
    get_batch get_objects ids fields false w = (Return (BatchPages pages), w') /\
    (forall id : string,
        pages !! id = Page_new_from_json_dict <$> data !! id) /\
    dom pages = dom data /\
    size pages = size data.
Proof.
  unfold get_batch.
  destruct (get_objects _ _ w) as [[data|e|] w0]; try discriminate.
  intros Hrun. injection Hrun as <- <-.
  exists data, (dict_comprehension Page_new_from_json_dict data).
  split; [reflexivity|]. split; [reflexivity|].
  rewrite dict_comprehension_fmap. split; [|split].
  - intros id. apply lookup_fmap.
  - apply dom_fmap_L.
  - apply map_size_fmap.
Qed.


End BatchFacts.

(** ** The further scenarios *)

Section MoreScenarios.
Import Params Fetcher Graph FacebookPage PageBatch Scenario Outage.

Local Existing Instance library.

Example info_of_facebook :
  get_info (client videos_server) None (Some "facebook") None false fresh
  = (Return (PageObject (record_id (JObj {[ "id" := JStr "facebook" ]}))),
     {| world := [object_request "facebook" (Some "id,name,username")];
        calls := [CallGetObject "facebook" (Some "id,name,username")] |}).
Proof. reflexivity. Qed.

Lemma get_info_return_json_witness :
  exists data,
    PageJson (JObj {[ "id" := JStr "facebook" ]}) = PageJson data /\
    get_info (client videos_server) None (Some "facebook") None false fresh
    = (Return (PageObject (Page_new_from_json_dict data)),
       {| world := [object_request "facebook" (Some "id,name,username")];
          calls := [CallGetObject "facebook" (Some "id,name,username")] |}).
Proof.
  exact (proj1 (get_info_return_json (client videos_server) None
                  (Some "facebook") None fresh
                  {| world := [object_request "facebook"
                                 (Some "id,name,username")];
                     calls := [CallGetObject "facebook"
                                 (Some "id,name,username")] |})
           (PageJson (JObj {[ "id" := JStr "facebook" ]})) eq_refl).
Defined.

Lemma get_info_page_id_first_witness :
  get_info (client videos_server) (Some "20531316728") (Some "facebook") None
    true fresh
  = get_info (client videos_server) (Some "20531316728") None None true fresh.
Proof.
  exact (get_info_page_id_first (client videos_server) (Some "20531316728")
           (Some "facebook") None None true fresh eq_refl).
Defined.

Lemma get_info_raises_witness :
  get_info down_client (Some "20531316728") None None false fresh
  = (Raise unreachable,
     {| world := [object_request "20531316728" (Some "id,name,username")];
        calls := [CallGetObject "20531316728" (Some "id,name,username")] |}).
Proof.
  apply (proj2 (get_info_raises down_client (Some "20531316728") None None
                  false fresh _ unreachable)).
  right. exists "20531316728".
  exists [object_request "20531316728" (Some "id,name,username")].
  split; [left; split; reflexivity|]. split; reflexivity.
Defined.

Lemma get_feed_raises_witness :
  exists w,
    client_get_full_connections down_client
      {| conn_object_id := "";
         conn_connection := Some "feed";
         conn_count := Some 10;
         conn_limit := Some 10;
         conn_fields := Some "id,message,comments.summary(true)";
         conn_since := None;
         conn_until := None |} (world fresh)
    = (Raise unreachable, w) /\
    snd (get_feed down_client "" None None None Omitted Omitted Omitted false
           fresh)
    = {| world := w;
         calls := calls fresh
                  ++ [CallGetFullConnections
                        {| conn_object_id := "";
                           conn_connection := Some "feed";
                           conn_count := Some 10;
                           conn_limit := Some 10;
                           conn_fields :=
                             Some "id,message,comments.summary(true)";
                           conn_since := None;
                           conn_until := None |}] |}.
Proof.
  exact (proj1 (get_feed_raises down_client "" None None None Omitted Omitted
                  Omitted false fresh
                  (snd (get_feed down_client "" None None None Omitted Omitted
                          Omitted false fresh))
                  unreachable) eq_refl).
Defined.

Lemma get_feed_posts_in_order_witness :
  exists feeds posts,
    FeedsJson (record <$> [1; 2; 3]) = FeedsJson feeds /\
    get_feed (client videos_server) "367152833370567" None None None
      (Passed (Some 3)) (Passed (Some 5)) (Passed (Some "videos")) false fresh
    = (Return (FeedsPosts posts, paging page_1),
       snd (get_feed (client videos_server) "367152833370567" None None None
              (Passed (Some 3)) (Passed (Some 5)) (Passed (Some "videos"))
              true fresh)) /\
    length posts = length feeds /\
    (forall i : nat, posts !! i = Post_new_from_json_dict <$> feeds !! i).
Proof.
  exact (get_feed_posts_in_order (client videos_server) "367152833370567"
           None None None (Passed (Some 3)) (Passed (Some 5))
           (Passed (Some "videos")) fresh
           (snd (get_feed (client videos_server) "367152833370567" None None
                   None (Passed (Some 3)) (Passed (Some 5))
                   (Passed (Some "videos")) true fresh))
           (FeedsJson (record <$> [1; 2; 3])) (paging page_1) eq_refl).
Defined.

Lemma get_batch_pages_witness :
  exists data pages,
    BatchJson two_pages = BatchJson data /\
    get_batch get_objects_ok
      (Some (VList ["20531316728"; "19292868552"])) None false []
    = (Return (BatchPages pages),
       [object_request "20531316728,19292868552"
          (Some "id,name,username")]) /\
    (forall id : string,
        pages !! id = Page_new_from_json_dict <$> data !! id) /\
    dom pages = dom data /\
    size pages = size data.
Proof.
  exact (get_batch_pages get_objects_ok
           (Some (VList ["20531316728"; "19292868552"])) None []
           [object_request "20531316728,19292868552"
              (Some "id,name,username")]
           (BatchJson two_pages) eq_refl).
Defined.


End MoreScenarios.
